(** * auto-port-config: rule resolution, configuration comparison and apply

    A shallow embedding of [auto-port-config/auto-port-config.py] and the
    properties of its resolver ([check_interface_macs]), its comparator
    ([check_interface_config]), its applier ([config_interface]), its rule
    file loader ([parse_config_file]) and its address normaliser
    ([clean_mac_address]).

    Conventions of the embedding.
    - Python strings are [string]s of 8-bit characters.  The model is exact
      for ASCII text, which is what hardware addresses and configuration
      lines are.
    - The script carries shims for Python 2 and Python 3 (lines 10 and
      256-257), and the two interpreters differ at line 184: the result of
      [.encode("utf-8")] is a byte string, which Python 2 compares equal to
      the text it encodes and Python 3 never does.  The interpreter is a
      parameter ([interpreter]), and values that enter a set carry their
      kind ([pyvalue]).
    - [options.debug] only guards [print] calls; debug output is left out.
    - The YAML and JSON parsers, the switch transport and the interpreter
      that runs the script are the outside world: they are parameters of
      the development (class [World]). *)

From Stdlib Require Import Ascii String.
From stdpp Require Import base list strings gmap.

(** ** Python string primitives used by the script *)

Module PyStr.

(** [s.replace(c, '')] for a one-character [c]: every occurrence goes. *)
Fixpoint replace_char (c : ascii) (s : string) : string :=
  match s with
  | EmptyString => EmptyString
  | String a s' =>
      if Ascii.eqb a c then replace_char c s'
      else String a (replace_char c s')
  end.

(** Whitespace in the sense of [str.strip()] without argument, on ASCII:
    TAB, LF, VT, FF, CR, FS, GS, RS, US and SPACE. *)
Definition isspace (a : ascii) : bool :=
  let n := nat_of_ascii a in
  ((9 <=? n) && (n <=? 13)) || ((28 <=? n) && (n <=? 32)).

Fixpoint lstrip (s : string) : string :=
  match s with
  | EmptyString => EmptyString
  | String a s' => if isspace a then lstrip s' else s
  end.

Fixpoint rstrip (s : string) : string :=
  match s with
  | EmptyString => EmptyString
  | String a s' =>
      match rstrip s' with
      | EmptyString => if isspace a then EmptyString else String a EmptyString
      | r => String a r
      end
  end.

(** [s.strip()] *)
Definition strip (s : string) : string := rstrip (lstrip s).

Definition isupper (a : ascii) : bool :=
  let n := nat_of_ascii a in (65 <=? n) && (n <=? 90).

Definition lower_char (a : ascii) : ascii :=
  if isupper a then ascii_of_nat (nat_of_ascii a + 32) else a.

(** [s.lower()] *)
Fixpoint lower (s : string) : string :=
  match s with
  | EmptyString => EmptyString
  | String a s' => String (lower_char a) (lower s')
  end.

(** [s[0:n]]: the first [n] characters, or all of [s] when it is shorter. *)
Fixpoint prefix (n : nat) (s : string) : string :=
  match n, s with
  | S n', String a s' => String a (prefix n' s')
  | _, _ => EmptyString
  end.

Definition newline : ascii := "010"%char.

(** [s.split("\n")]: never empty, [""] splits into [[""]]. *)
Fixpoint split_lines (s : string) : list string :=
  match s with
  | EmptyString => [EmptyString]
  | String a s' =>
      if Ascii.eqb a newline then EmptyString :: split_lines s'
      else match split_lines s' with
           | [] => [String a EmptyString]
           | l :: ls => String a l :: ls
           end
  end.

(** The characters of a string, for statements about its contents. *)
Fixpoint chars (s : string) : list ascii :=
  match s with
  | EmptyString => []
  | String a s' => a :: chars s'
  end.

(** Truth value of a string: [if line] holds for non-empty strings. *)
Definition truthy (s : string) : bool :=
  match s with EmptyString => false | String _ _ => true end.

End PyStr.

Import PyStr.

(** ** Address normaliser (source lines 214-227) *)

(** [mac.replace(':','').replace('.','').replace('-','').strip().lower()] *)
Definition clean_mac_address (mac : string) : string :=
  lower (strip (replace_char "-"%char
                  (replace_char "."%char (replace_char ":"%char mac)))).

(** ** Rule table (the parsed rule file, [configs['configs']]) *)

(** One entry of the rule file: its patterns [macs] and the configuration
    lines [config] to apply, both in file order. *)
Record rule := Rule { macs : list string; config : list string }.

#[global] Instance rule_eq_dec : EqDecision rule.
Proof. solve_decision. Defined.

(** ** Loops with [return] inside

    A Python [for] loop whose body may [return]: the body either returns a
    result, which ends the enclosing function, or hands the updated local
    variables to the next iteration. *)
Inductive flow (R S : Type) : Type :=
| Return (r : R)
| Continue (s : S).
Arguments Return {R S} r.
Arguments Continue {R S} s.

Fixpoint for_each {A R S : Type} (body : A -> S -> flow R S)
  (l : list A) (s : S) : flow R S :=
  match l with
  | [] => Continue s
  | a :: l' =>
      match body a s with
      | Return r => Return r
      | Continue s' => for_each body l' s'
      end
  end.

(** ** Address resolver (source lines 126-163) *)

(** The local variables [ouiMatch] and [defaultMatch]; [specificMatch] is
    assigned once and never read. *)
Record matches := Matches { ouiMatch : option rule; defaultMatch : option rule }.

Definition no_matches : matches := Matches None None.

(** Body of [for mac in config['macs']] (lines 144-158): three independent
    [if]s, the last of which returns. *)
Definition pattern_step (mac_address interfaceOUI : string) (cfg : rule)
  (mac : string) (st : matches) : flow rule matches :=
  let mac := clean_mac_address mac in
  let st1 := if String.eqb mac "*"
             then Matches (ouiMatch st) (Some cfg) else st in
  let st2 := if String.eqb interfaceOUI mac
             then Matches (Some cfg) (defaultMatch st1) else st1 in
  if String.eqb mac_address mac then Return cfg else Continue st2.

(** Body of [for config in configs['configs']] (line 142). *)
Definition config_step (mac_address interfaceOUI : string)
  (cfg : rule) (st : matches) : flow rule matches :=
  for_each (pattern_step mac_address interfaceOUI cfg) (macs cfg) st.

(** Body of [for mac_address in ...tableEntries] (lines 135-163): the [if]
    at lines 160-163 sits inside this loop and returns on both branches. *)
Definition address_step (configs : list rule) (entry : string)
  (st : matches) : flow (option rule) matches :=
  let mac_address := clean_mac_address entry in
  let interfaceOUI := prefix 6 mac_address in
  match for_each (config_step mac_address interfaceOUI) configs st with
  | Return cfg => Return (Some cfg)
  | Continue st' =>
      match ouiMatch st' with
      | Some r => Return (Some r)
      | None => Return (defaultMatch st')
      end
  end.

(** The resolver: [check_interface_macs] from line 134 on, applied to the
    [macAddress] fields of the switch's reply in the order of the reply.
    Falling off the end of the loop returns [None]. *)
Definition resolve (entries : list string) (configs : list rule) : option rule :=
  match for_each (address_step configs) entries no_matches with
  | Return r => r
  | Continue _ => None
  end.

(** ** Configuration comparator (source lines 183-194) *)

(** The interpreter that runs the script. *)
Inductive interpreter : Type :=
| Python2
| Python3.

(** A string value with its kind.  [Text] is the native string: what the
    YAML loader yields for a configuration line, and on Python 2 also the
    byte string an ASCII line encodes to, since the two compare equal and
    hash alike there.  [Bytes] is a Python 3 [bytes] object, which never
    equals a [str]. *)
Inductive pyvalue : Type :=
| Text (s : string)
| Bytes (s : string).

#[global] Instance pyvalue_eq_dec : EqDecision pyvalue.
Proof. solve_decision. Defined.

#[global] Instance pyvalue_countable : Countable pyvalue.
Proof.
  refine (inj_countable'
            (fun v => match v with Text s => inl s | Bytes s => inr s end)
            (fun x => match x with inl s => Text s | inr s => Bytes s end) _).
  by intros [].
Defined.

(** [s.encode("utf-8")] on an ASCII string. *)
Definition encode (py : interpreter) (s : string) : pyvalue :=
  match py with
  | Python2 => Text s
  | Python3 => Bytes s
  end.

(** [[line.strip().encode("utf-8") for line in config if line]] (line 184):
    the filter tests the line as split, before it is stripped. *)
Definition clean_config (py : interpreter) (lines : list string) : list pyvalue :=
  (fun line => encode py (strip line)) <$> filter (fun line => truthy line = true) lines.

(** [del config[:1]] (line 185) *)
Definition live_lines (py : interpreter) (lines : list string) : list pyvalue :=
  drop 1 (clean_config py lines).

(** [set(config) == set(_int_config['config'])] (line 187) on the split
    reply; the desired lines are the strings of the rule file. *)
Definition config_same (py : interpreter) (lines desired : list string) : bool :=
  bool_decide (list_to_set (live_lines py lines)
               =@{gset pyvalue} list_to_set (Text <$> desired)).

(** The decision [main] takes at line 60: it goes on to configure exactly
    when [check_interface_config] is false. *)
Definition needsUpdate (py : interpreter) (live desired : list string) : bool :=
  negb (config_same py live desired).

(** The text of the lines that line 184 keeps, before they are encoded. *)
Definition stripped_lines (lines : list string) : list string :=
  strip <$> filter (fun line => line <> "") lines.


(** ** The outside world: rule file stream, parsers, switch transport *)

(** An open file: its content and the read position. *)
Record file := File { content : string; pos : nat }.

Fixpoint string_drop (n : nat) (s : string) : string :=
  match n, s with
  | S n', String _ s' => string_drop n' s'
  | _, _ => s
  end.

(** [fp.read()]: what is left from the read position on; the position
    moves to the end. *)
Definition read (f : file) : string * file :=
  (string_drop (pos f) (content f), File (content f) (String.length (content f))).

(** Outcome of a parser: an exception, or a value which may be Python's
    [None] (an empty YAML document, JSON [null]).  Documents are taken to
    have the shape the resolver indexes: a [configs] sequence of rules. *)
Inductive load_result : Type :=
| Raised
| Loaded (v : option (list rule)).

(** The switch's reply: the [macAddress] fields of
    [response[1]['unicastTable']['tableEntries']] and [response[1]['output']]. *)
Record response := Response { tableEntries : list string; output : string }.

Class World := {
  (** The interpreter the script runs under. *)
  python : interpreter;
  (** [yaml.safe_load(fp)] reads from the stream as far as it needs. *)
  yaml_safe_load : file -> load_result * file;
  (** [json.loads(text)]; [json.load(fp)] is [json.loads(fp.read())]. *)
  json_loads : string -> load_result;
  (** [switch.runCmds(version=1, cmds=..., format=...)]; [None] when the
      call raises. *)
  switch_runCmds : list string -> string -> option response
}.

(** What a run does to the outside: messages printed and command batches
    handed to the transport. *)
Inductive event : Type :=
| Print (msg : string)
| RunCmds (cmds : list string) (format : string).

(** A computation that logs events and either yields a value or has called
    [quit()]. *)
Definition proc (A : Type) : Type := (list event * option A)%type.

Definition ret {A : Type} (a : A) : proc A := ([], Some a).

Definition bind {A B : Type} (m : proc A) (k : A -> proc B) : proc B :=
  match m with
  | (t, None) => (t, None)
  | (t, Some a) => let (t', r) := k a in (t ++ t', r)
  end.

Definition emit (e : event) : proc unit := ([e], Some tt).

Definition quit {A : Type} : proc A := ([], None).

Notation "x <- m ;; k" := (bind m (fun x => k))
  (at level 100, m at next level, right associativity).
Notation "m ;;; k" := (bind m (fun _ => k))
  (at level 100, right associativity).

Definition trace {A : Type} (m : proc A) : list event := fst m.

Section Run.
Context `{W : World}.

(** Source lines 83-99.  The JSON attempt reads the same open file the
    YAML attempt has read from. *)
Definition parse_config_file (config_file : file) : option (list rule) :=
  match yaml_safe_load config_file with
  | (Loaded configs, _) => configs
  | (Raised, config_file') =>
      match json_loads (fst (read config_file')) with
      | Loaded configs => configs
      | Raised => None
      end
  end.

(** Source lines 245-253.  The text of the exception, printed after the
    message, is left out. *)
Definition runCMD (_cmd : list string) (_format : string) : proc response :=
  emit (RunCmds ("enable" :: _cmd) _format) ;;;
  match switch_runCmds ("enable" :: _cmd) _format with
  | Some r => ret r
  | None => emit (Print "Error with connecting to switch! Please try again.") ;;; quit
  end.

(** Source lines 130-163. *)
Definition check_interface_macs (_interface : string) (configs : list rule)
  : proc (option rule) :=
  response <- runCMD ["show mac address-table interface " +:+ _interface] "json" ;;
  ret (resolve (tableEntries response) configs).

(** Source lines 180-194. *)
Definition check_interface_config (_interface : string) (_int_config : rule)
  : proc bool :=
  response <- runCMD ["show running-config interfaces  " +:+ _interface] "text" ;;
  ret (config_same python (split_lines (output response)) (config _int_config)).

(** Source line 211. *)
Definition config_interface (_config : rule) (_interface : string) : proc unit :=
  runCMD (["configure"; "default interface " +:+ _interface;
           "interface " +:+ _interface] ++ config _config) "json" ;;;
  ret tt.

(** Source lines 49-63, on the interface name and the opened rule file. *)
Definition main (inter : string) (rule_file : string) : proc unit :=
  match parse_config_file (File rule_file 0) with
  | None =>
      emit (Print "Could not successfully parse the configuration file") ;;; quit
  | Some configs =>
      specificConfig <- check_interface_macs inter configs ;;
      match specificConfig with
      | None => quit
      | Some specificConfig =>
          same <- check_interface_config inter specificConfig ;;
          if same then quit else config_interface specificConfig inter
      end
  end.

End Run.

(** The batch the specification describes for the applier, word for word:
    privilege elevation, reset to default, interface context, then the
    lines.  It is compared with what [config_interface] sends. *)
Definition spec_apply_batch (inter : string) (r : rule) : list string :=
  "enable" :: ("default interface " +:+ inter) :: ("interface " +:+ inter) :: config r.

(** ** Vocabulary for the statements *)

Definition is_delimiter (a : ascii) : bool :=
  Ascii.eqb a ":"%char || Ascii.eqb a "."%char || Ascii.eqb a "-"%char.

(** A single pass that keeps the characters which are not delimiters. *)
Fixpoint remove_delimiters (s : string) : string :=
  match s with
  | EmptyString => EmptyString
  | String a s' =>
      if is_delimiter a then remove_delimiters s'
      else String a (remove_delimiters s')
  end.

Definition all_space (s : string) : bool := forallb isspace (chars s).

Definition starts_with_space (s : string) : bool :=
  match s with
  | EmptyString => false
  | String a _ => isspace a
  end.

Fixpoint ends_with_space (s : string) : bool :=
  match s with
  | EmptyString => false
  | String a EmptyString => isspace a
  | String _ s' => ends_with_space s'
  end.

(** Rule [r] holds a pattern whose normal form is [p]. *)
Definition has_pattern (p : string) (r : rule) : bool :=
  existsb (fun mac => String.eqb p (clean_mac_address mac)) (macs r).

(** The last rule of the table, in table order, that holds pattern [p]. *)
Fixpoint last_with (p : string) (configs : list rule) : option rule :=
  match configs with
  | [] => None
  | r :: configs' =>
      match last_with p configs' with
      | Some r' => Some r'
      | None => if has_pattern p r then Some r else None
      end
  end.

(** The normal form of a learned address and its OUI, as lines 135-136
    compute them. *)
Definition address_of (entry : string) : string := clean_mac_address entry.
Definition oui_of (entry : string) : string := prefix 6 (address_of entry).

(** ** Test doubles for the outside world

    Used only to run the program on concrete inputs.  The YAML double reads
    the whole stream before it parses, as a loader given a short file does,
    and rejects a document that holds a TAB; the JSON double accepts one
    document, which stands for a TAB-indented JSON rule file. *)

Definition lab_rules : list rule :=
  [ Rule ["*"] ["switchport mode access"; "switchport access vlan 10"];
    Rule ["aabbcc"] ["switchport mode trunk"] ].

Definition lab_document : string :=
  "{" +:+ String "009"%char "configs: [...]}".

Definition lab_yaml (f : file) : load_result * file :=
  let (text, f') := read f in
  (if existsb (Ascii.eqb "009"%char) (chars text) then Raised
   else Loaded (Some lab_rules), f').

Definition lab_json (text : string) : load_result :=
  if String.eqb text lab_document then Loaded (Some lab_rules) else Raised.

(** A switch that has learned [entries] on the interface and answers the
    running-config query with [running]; the script runs under Python 2. *)
Definition lab_world (entries : list string) (running : string) : World :=
  {| python := Python2;
     yaml_safe_load := lab_yaml;
     json_loads := lab_json;
     switch_runCmds := fun _ _ => Some (Response entries running) |}.

(** The same switch and rule file, the script under Python 3. *)
Definition lab_world_py3 (entries : list string) (running : string) : World :=
  {| python := Python3;
     yaml_safe_load := lab_yaml;
     json_loads := lab_json;
     switch_runCmds := fun _ _ => Some (Response entries running) |}.

(** * Properties *)

(** ** Strings *)

Lemma append_cons (a : ascii) (s t : string) :
  String a s +:+ t = String a (s +:+ t).
Proof. reflexivity. Qed.

Lemma append_empty_r (s : string) : s +:+ "" = s.
Proof. induction s as [|a s IH]; [reflexivity|]. rewrite append_cons. by f_equal. Qed.

Lemma chars_append (s t : string) : chars (s +:+ t) = chars s ++ chars t.
Proof.
  induction s as [|a s IH]; [reflexivity|].
  rewrite append_cons. simpl. by f_equal.
Qed.

Lemma chars_inj (s t : string) : chars s = chars t -> s = t.
Proof.
  revert t. induction s as [|a s IH]; intros [|b t] H; simpl in H; try done.
  injection H as -> H. f_equal. by apply IH.
Qed.

Lemma replace_char_chars (c : ascii) (s : string) :
  chars (replace_char c s) = filter (fun a => a <> c) (chars s).
Proof.
  induction s as [|a s IH]; [reflexivity|]. simpl.
  destruct (Ascii.eqb_spec a c) as [->|Hne].
  - rewrite filter_cons_False by (intros H; by apply H). exact IH.
  - rewrite filter_cons_True by done. simpl. by f_equal.
Qed.

Lemma remove_delimiters_chars (s : string) :
  chars (remove_delimiters s) = filter (fun a => is_delimiter a = false) (chars s).
Proof.
  induction s as [|a s IH]; [reflexivity|]. simpl.
  destruct (is_delimiter a) eqn:E.
  - rewrite filter_cons_False by (rewrite E; done). exact IH.
  - rewrite filter_cons_True by done. simpl. by f_equal.
Qed.

Lemma is_delimiter_false (a : ascii) :
  is_delimiter a = false <-> a <> ":"%char /\ a <> "."%char /\ a <> "-"%char.
Proof.
  unfold is_delimiter.
  destruct (Ascii.eqb_spec a ":"), (Ascii.eqb_spec a "."), (Ascii.eqb_spec a "-");
    simpl; split; try done; try (intros (? & ? & ?); done).
Qed.

(** Three successive [replace] calls are one pass over the string. *)
Lemma replace_three (s : string) :
  replace_char "-"%char (replace_char "."%char (replace_char ":"%char s))
  = remove_delimiters s.
Proof.
  apply chars_inj.
  rewrite !replace_char_chars, remove_delimiters_chars.
  induction (chars s) as [|a l IH]; [reflexivity|].
  destruct (is_delimiter a) eqn:E.
  - rewrite (filter_cons_False (fun a => is_delimiter a = false)) by (rewrite E; done).
    rewrite <- IH. clear IH.
    destruct (decide (a = ":"%char)) as [->|H1].
    { by rewrite filter_cons_False by (intros H; by apply H). }
    rewrite (filter_cons_True _ a l) by done.
    destruct (decide (a = "."%char)) as [->|H2].
    { by rewrite filter_cons_False by (intros H; by apply H). }
    rewrite (filter_cons_True _ a) by done.
    destruct (decide (a = "-"%char)) as [->|H3].
    { by rewrite filter_cons_False by (intros H; by apply H). }
    exfalso. assert (is_delimiter a = false) by (by apply is_delimiter_false). congruence.
  - apply is_delimiter_false in E as E'. destruct E' as (H1 & H2 & H3).
    rewrite (filter_cons_True (fun a => is_delimiter a = false)) by done.
    rewrite (filter_cons_True _ a l) by done.
    rewrite (filter_cons_True _ a) by done.
    rewrite (filter_cons_True _ a) by done.
    by f_equal.
Qed.

Lemma lstrip_decomp (s : string) :
  exists l, all_space l = true /\ s = l +:+ lstrip s
            /\ starts_with_space (lstrip s) = false.
Proof.
  induction s as [|a s (l & Hl & Hs & Hst)].
  - by exists "".
  - simpl. destruct (isspace a) eqn:E.
    + exists (String a l). split; [|split]; try done.
      * unfold all_space in *. simpl. by rewrite E.
      * rewrite append_cons. by f_equal.
    + exists "". split; [done|]. split; [done|]. simpl. exact E.
Qed.

Lemma rstrip_decomp (s : string) :
  exists r, all_space r = true /\ s = rstrip s +:+ r
            /\ ends_with_space (rstrip s) = false.
Proof.
  induction s as [|a s (r & Hr & Hs & Hend)].
  - by exists "".
  - simpl. destruct (rstrip s) as [|b t] eqn:E.
    + destruct (isspace a) eqn:Ea.
      * exists (String a r). split; [|split]; try done.
        -- unfold all_space in *. simpl. by rewrite Ea.
        -- simpl in Hs. by rewrite Hs at 1.
      * exists r. split; [done|]. split; [|by simpl].
        rewrite append_cons. f_equal. exact Hs.
    + exists r. split; [done|]. split.
      * rewrite append_cons. f_equal. exact Hs.
      * exact Hend.
Qed.

Lemma rstrip_starts (s : string) :
  starts_with_space s = false -> starts_with_space (rstrip s) = false.
Proof.
  destruct s as [|a s]; [done|]. simpl. intros Ha.
  destruct (rstrip s); [by rewrite Ha | exact Ha].
Qed.

(** [strip] removes a run of whitespace at each end and nothing else. *)
Lemma strip_decomp (s : string) :
  exists l r, all_space l = true /\ all_space r = true
    /\ s = l +:+ strip s +:+ r
    /\ starts_with_space (strip s) = false
    /\ ends_with_space (strip s) = false.
Proof.
  destruct (lstrip_decomp s) as (l & Hl & Hs & Hst).
  destruct (rstrip_decomp (lstrip s)) as (r & Hr & Hs' & Hend).
  exists l, r. unfold strip. repeat split; try done.
  - by rewrite <- Hs'.
  - by apply rstrip_starts.
Qed.

Lemma lower_char_not_upper (a : ascii) : isupper (lower_char a) = false.
Proof. destruct a as [[] [] [] [] [] [] [] []]; reflexivity. Qed.

Lemma lower_char_delimiter (a : ascii) :
  is_delimiter (lower_char a) = is_delimiter a.
Proof. destruct a as [[] [] [] [] [] [] [] []]; reflexivity. Qed.

Lemma lower_char_space (a : ascii) : isspace (lower_char a) = isspace a.
Proof. destruct a as [[] [] [] [] [] [] [] []]; reflexivity. Qed.

Lemma lower_chars (s : string) : chars (lower s) = map lower_char (chars s).
Proof. induction s as [|a s IH]; [reflexivity|]. simpl. by f_equal. Qed.

Lemma lower_starts (s : string) :
  starts_with_space (lower s) = starts_with_space s.
Proof. destruct s; [reflexivity|]. simpl. apply lower_char_space. Qed.

Lemma lower_ends (s : string) : ends_with_space (lower s) = ends_with_space s.
Proof.
  induction s as [|a s IH]; [reflexivity|].
  destruct s as [|b s]; [simpl; apply lower_char_space|].
  exact IH.
Qed.

Lemma clean_mac_address_unfold (mac : string) :
  clean_mac_address mac = lower (strip (remove_delimiters mac)).
Proof. unfold clean_mac_address. by rewrite replace_three. Qed.

(** C8. For every input string the normaliser removes every occurrence of
    the delimiters [:], [.] and [-], then trims the whitespace at both ends,
    then lowercases: the input without its delimiters is [l ++ core ++ r]
    with [l] and [r] whitespace only, the result is [core] in lower case, it
    neither starts nor ends with whitespace, and it holds no delimiter and
    no upper-case letter.  Nothing is validated: the function is total and a
    string that is no hardware address is transformed like any other.  The
    three spellings of the specification all give [aabbcc112233]. *)
Theorem clean_mac_address_normalises (mac : string) :
  (exists l core r, all_space l = true /\ all_space r = true
     /\ remove_delimiters mac = l +:+ core +:+ r
     /\ clean_mac_address mac = lower core)
  /\ starts_with_space (clean_mac_address mac) = false
  /\ ends_with_space (clean_mac_address mac) = false
  /\ (forall a, a ∈ chars (clean_mac_address mac) ->
        is_delimiter a = false /\ isupper a = false)
  /\ clean_mac_address "AA:BB:CC:11:22:33" = "aabbcc112233"
  /\ clean_mac_address "aabb.cc11.2233" = "aabbcc112233"
  /\ clean_mac_address "aa-bb-cc-11-22-33" = "aabbcc112233"
  /\ clean_mac_address " Not-A.MAC:zz " = "notamaczz".
Proof.
  rewrite !clean_mac_address_unfold.
  destruct (strip_decomp (remove_delimiters mac)) as (l & r & Hl & Hr & Hs & Hst & Hend).
  split; [by exists l, (strip (remove_delimiters mac)), r|].
  split; [by rewrite lower_starts|].
  split; [by rewrite lower_ends|].
  split; [|by repeat split].
  intros a Ha. rewrite lower_chars in Ha.
  apply list_elem_of_fmap in Ha as (b & -> & Hb).
  split; [|apply lower_char_not_upper].
  rewrite lower_char_delimiter.
  assert (Hin : b ∈ chars (remove_delimiters mac)).
  { rewrite Hs, !chars_append. set_solver. }
  rewrite remove_delimiters_chars in Hin.
  by apply list_elem_of_filter in Hin as [? _].
Qed.

(** ** The resolver *)

Lemma for_each_cons {A R S : Type} (body : A -> S -> flow R S) a l s :
  for_each body (a :: l) s =
  match body a s with
  | Return r => Return r
  | Continue s' => for_each body l s'
  end.
Proof. reflexivity. Qed.

(** The scan of one rule's patterns: an exact pattern returns the rule;
    otherwise the rule overwrites each candidate it has a pattern for. *)
Lemma pattern_scan (a o : string) (cfg : rule) (ms : list string) (st : matches) :
  for_each (pattern_step a o cfg) ms st =
  if existsb (fun mac => String.eqb a (clean_mac_address mac)) ms
  then Return cfg
  else Continue (Matches
         (if existsb (fun mac => String.eqb o (clean_mac_address mac)) ms
          then Some cfg else ouiMatch st)
         (if existsb (fun mac => String.eqb "*" (clean_mac_address mac)) ms
          then Some cfg else defaultMatch st)).
Proof.
  revert st. induction ms as [|m ms IH]; intros [om dm]; [reflexivity|].
  rewrite for_each_cons. unfold pattern_step at 1. cbn [existsb].
  rewrite (String.eqb_sym (clean_mac_address m) "*").
  destruct (String.eqb a (clean_mac_address m)); [reflexivity|].
  rewrite IH. cbn [orb ouiMatch defaultMatch].
  destruct (existsb (fun mac => String.eqb a (clean_mac_address mac)) ms);
    [reflexivity|].
  destruct (String.eqb "*" (clean_mac_address m)),
    (String.eqb o (clean_mac_address m));
    cbn [orb ouiMatch defaultMatch];
    repeat match goal with |- context [if ?b then _ else _] => destruct b end;
    reflexivity.
Qed.

Lemma config_scan (a o : string) (cfg : rule) (st : matches) :
  config_step a o cfg st =
  if has_pattern a cfg then Return cfg
  else Continue (Matches
         (if has_pattern o cfg then Some cfg else ouiMatch st)
         (if has_pattern "*" cfg then Some cfg else defaultMatch st)).
Proof. apply pattern_scan. Qed.

(** The scan of the whole table for one address. *)
Lemma table_scan (a o : string) (configs : list rule) (st : matches) :
  for_each (config_step a o) configs st =
  match find (has_pattern a) configs with
  | Some r => Return r
  | None => Continue (Matches
              (match last_with o configs with
               | Some r => Some r | None => ouiMatch st end)
              (match last_with "*" configs with
               | Some r => Some r | None => defaultMatch st end))
  end.
Proof.
  revert st. induction configs as [|cfg configs IH]; intros [om dm]; [reflexivity|].
  rewrite for_each_cons, config_scan. simpl find.
  destruct (has_pattern a cfg); [reflexivity|].
  rewrite IH. destruct (find (has_pattern a) configs); [reflexivity|].
  cbn [last_with ouiMatch defaultMatch].
  destruct (last_with o configs), (last_with "*" configs),
    (has_pattern o cfg), (has_pattern "*" cfg); reflexivity.
Qed.

(** The resolver as a decision table on the first learned address. *)
Lemma resolve_first (entry : string) (rest : list string) (configs : list rule) :
  resolve (entry :: rest) configs =
  match find (has_pattern (address_of entry)) configs with
  | Some r => Some r
  | None =>
      match last_with (oui_of entry) configs with
      | Some r => Some r
      | None => last_with "*" configs
      end
  end.
Proof.
  unfold resolve. rewrite for_each_cons. unfold address_step.
  rewrite table_scan. fold (address_of entry). fold (oui_of entry).
  destruct (find _ configs); [reflexivity|]. simpl.
  destruct (last_with (oui_of entry) configs); [reflexivity|].
  by destruct (last_with "*" configs).
Qed.

Lemma find_app_first (p : string) (pre post : list rule) (R : rule) :
  Forall (fun r => has_pattern p r = false) pre ->
  has_pattern p R = true ->
  find (has_pattern p) (pre ++ R :: post) = Some R.
Proof.
  intros Hpre HR. induction Hpre as [|r pre Hr _ IH]; simpl.
  - by rewrite HR.
  - by rewrite Hr.
Qed.

Lemma find_none (p : string) (configs : list rule) :
  Forall (fun r => has_pattern p r = false) configs ->
  find (has_pattern p) configs = None.
Proof. induction 1 as [|r l Hr _ IH]; simpl; [done|]. by rewrite Hr. Qed.

Lemma last_with_none (p : string) (configs : list rule) :
  Forall (fun r => has_pattern p r = false) configs ->
  last_with p configs = None.
Proof. induction 1 as [|r l Hr _ IH]; simpl; [done|]. by rewrite IH, Hr. Qed.

Lemma last_with_app_last (p : string) (pre post : list rule) (R : rule) :
  has_pattern p R = true ->
  Forall (fun r => has_pattern p r = false) post ->
  last_with p (pre ++ R :: post) = Some R.
Proof.
  intros HR Hpost. induction pre as [|r pre IH]; simpl.
  - by rewrite (last_with_none _ _ Hpost), HR.
  - by rewrite IH.
Qed.

(** A [Forall] over a concrete table, checked entry by entry. *)
Ltac check_all :=
  repeat first [ apply Forall_nil_2
               | apply Forall_cons_2; [vm_compute; reflexivity|] ].

(** C1. For every rule table and every non-empty list of learned addresses
    the resolver returns in the iteration of the first address: the loop
    body returns for it.  Unless an exact match returned a rule from inside
    the scan, the result is the OUI candidate the scan of the table for that
    address recorded if there is one, and the default candidate (possibly
    none) otherwise; as a decision table, the first rule holding the
    address, else the last rule holding its OUI, else the last rule holding
    a wildcard, else none.  The addresses after the first never matter. *)
Theorem resolve_first_address_only
  (entry : string) (rest : list string) (configs : list rule) :
  address_step configs entry no_matches = Return (resolve (entry :: rest) configs)
  /\ resolve (entry :: rest) configs =
       match for_each (config_step (address_of entry) (oui_of entry))
               configs no_matches with
       | Return cfg => Some cfg
       | Continue st =>
           match ouiMatch st with
           | Some r => Some r
           | None => defaultMatch st
           end
       end
  /\ resolve (entry :: rest) configs =
       match find (has_pattern (address_of entry)) configs with
       | Some r => Some r
       | None =>
           match last_with (oui_of entry) configs with
           | Some r => Some r
           | None => last_with "*" configs
           end
       end
  /\ (forall rest', resolve (entry :: rest') configs = resolve (entry :: rest) configs).
Proof.
  assert (Hbody : forall l, for_each (address_step configs) (entry :: l) no_matches
                            = address_step configs entry no_matches).
  { intros l. rewrite for_each_cons. unfold address_step.
    destruct (for_each _ configs no_matches) as [cfg|st]; [reflexivity|].
    by destruct (ouiMatch st). }
  split; [|split; [|split; [apply resolve_first|]]].
  - unfold resolve. rewrite Hbody. unfold address_step.
    destruct (for_each _ configs no_matches) as [cfg|st]; [reflexivity|].
    by destruct (ouiMatch st).
  - unfold resolve. rewrite Hbody. unfold address_step, oui_of, address_of.
    destruct (for_each _ configs no_matches) as [cfg|st]; [reflexivity|].
    by destruct (ouiMatch st).
  - intros rest'. unfold resolve. by rewrite !Hbody.
Qed.

(** C2. When some rule holds a pattern equal to the normal form of the first
    learned address, the resolver returns the first such rule in table
    order, whatever OUI or wildcard candidates the rules before it recorded
    and whatever stands after it. *)
Theorem resolve_exact_match_first
  (entry : string) (rest : list string) (pre post : list rule) (R : rule) :
  Forall (fun r => has_pattern (address_of entry) r = false) pre ->
  has_pattern (address_of entry) R = true ->
  resolve (entry :: rest) (pre ++ R :: post) = Some R.
Proof.
  intros Hpre HR. rewrite resolve_first.
  by rewrite (find_app_first _ _ _ _ Hpre HR).
Qed.

(** A wildcard rule and an OUI rule come first and record candidates; the
    third rule holds the full address after an OUI pattern of its own; a
    later rule holds the full address too. *)
Lemma resolve_exact_match_first_witness :
  resolve ["AA:BB:CC:11:22:33"; "00:1c:73:00:00:01"]
    ([Rule ["*"] ["switchport mode access"]; Rule ["aabbcc"] ["switchport mode trunk"]]
     ++ Rule ["aabb.cc"; "aa-bb-cc-11-22-33"] ["switchport access vlan 20"]
     :: [Rule ["aabbcc112233"] ["shutdown"]])
  = Some (Rule ["aabb.cc"; "aa-bb-cc-11-22-33"] ["switchport access vlan 20"]).
Proof.
  apply resolve_exact_match_first.
  - check_all.
  - vm_compute. reflexivity.
Defined.

(** C3. When no exact match fires for the first learned address: if its OUI
    equals a pattern in several rules the last of them in table order is
    returned, wildcard rules anywhere in the table notwithstanding (an OUI
    match outranks a default match); and if no rule holds the OUI, the last
    rule in table order that holds a wildcard is returned. *)
Theorem resolve_last_candidate_wins
  (entry : string) (rest : list string) (pre post : list rule) (R : rule) :
  Forall (fun r => has_pattern (address_of entry) r = false) (pre ++ R :: post) ->
  (has_pattern (oui_of entry) R = true
   /\ Forall (fun r => has_pattern (oui_of entry) r = false) post)
  \/ (Forall (fun r => has_pattern (oui_of entry) r = false) (pre ++ R :: post)
      /\ has_pattern "*" R = true
      /\ Forall (fun r => has_pattern "*" r = false) post) ->
  resolve (entry :: rest) (pre ++ R :: post) = Some R.
Proof.
  intros Hexact Hcase. rewrite resolve_first, (find_none _ _ Hexact).
  destruct Hcase as [[HR Hpost] | (Hnone & HR & Hpost)].
  - by rewrite (last_with_app_last _ _ _ _ HR Hpost).
  - by rewrite (last_with_none _ _ Hnone), (last_with_app_last _ _ _ _ HR Hpost).
Qed.

(** Two OUI rules with a wildcard rule before, between and after them: the
    second OUI rule wins.  Three wildcard rules and no OUI rule: the last
    wildcard rule wins. *)
Lemma resolve_last_candidate_wins_witness :
  resolve ["aa:bb:cc:11:22:33"; "00:1c:73:00:00:01"]
    ([Rule ["*"] ["d0"]; Rule ["aabbcc"] ["R1"]; Rule ["*"] ["d1"]]
     ++ Rule ["AA-BB-CC"] ["R2"] :: [Rule ["*"] ["d2"]])
  = Some (Rule ["AA-BB-CC"] ["R2"])
  /\ resolve ["aa:bb:cc:11:22:33"]
       ([Rule ["*"] ["d0"]; Rule ["001c73"; "*"] ["d1"]]
        ++ Rule ["*"] ["d2"] :: [Rule ["001c73"] ["other"]])
     = Some (Rule ["*"] ["d2"]).
Proof.
  split.
  - apply resolve_last_candidate_wins.
    + check_all.
    + left. split; [vm_compute; reflexivity|].
      check_all.
  - apply resolve_last_candidate_wins.
    + check_all.
    + right. split; [|split; [vm_compute; reflexivity|]];
        check_all.
Defined.

(** C4. The interface has learned two addresses and the only rule of the
    table holds the second one as an exact pattern.  The resolver returns in
    the iteration of the first address, which matches nothing, so the result
    is none; with the two addresses in the other order the rule is found. *)
Theorem resolve_misses_exact_match_of_later_address :
  let R := Rule ["aa:bb:cc:11:22:33"] ["switchport mode trunk"] in
  has_pattern (address_of "aa:bb:cc:11:22:33") R = true
  /\ resolve ["00:1c:73:00:00:01"; "aa:bb:cc:11:22:33"] [R] = None
  /\ resolve ["aa:bb:cc:11:22:33"; "00:1c:73:00:00:01"] [R] = Some R.
Proof. vm_compute. by repeat split. Qed.

(** ** The comparator *)

Lemma truthy_nonempty (line : string) : truthy line = true <-> line <> "".
Proof. destruct line; simpl; split; done. Qed.

Lemma filter_truthy (lines : list string) :
  filter (fun line => truthy line = true) lines = filter (fun line => line <> "") lines.
Proof.
  induction lines as [|l lines IH]; [reflexivity|].
  destruct l as [|a l].
  - rewrite !filter_cons_False by (simpl; congruence). exact IH.
  - rewrite !filter_cons_True by (simpl; congruence). by f_equal.
Qed.

Lemma clean_config_stripped (py : interpreter) (lines : list string) :
  clean_config py lines = encode py <$> stripped_lines lines.
Proof.
  unfold clean_config, stripped_lines.
  by rewrite filter_truthy, <- list_fmap_compose.
Qed.

Lemma live_lines_stripped (py : interpreter) (lines : list string) :
  live_lines py lines = encode py <$> drop 1 (stripped_lines lines).
Proof. unfold live_lines. by rewrite clean_config_stripped, fmap_drop. Qed.

Lemma stripped_lines_app (l1 l2 : list string) :
  stripped_lines (l1 ++ l2) = stripped_lines l1 ++ stripped_lines l2.
Proof. unfold stripped_lines. by rewrite filter_app, fmap_app. Qed.

Lemma stripped_lines_blank (lines : list string) :
  stripped_lines ("" :: lines) = stripped_lines lines.
Proof. unfold stripped_lines. by rewrite filter_cons_False by (intros H; by apply H). Qed.

Lemma stripped_lines_blanks (blanks lines : list string) :
  Forall (fun l => l = "") blanks ->
  stripped_lines (blanks ++ lines) = stripped_lines lines.
Proof.
  induction 1 as [|b blanks -> _ IH]; [reflexivity|].
  simpl app. by rewrite stripped_lines_blank.
Qed.

Lemma stripped_lines_cons (first : string) (rest : list string) :
  first <> "" -> stripped_lines (first :: rest) = strip first :: stripped_lines rest.
Proof. intros H. unfold stripped_lines. by rewrite filter_cons_True by done. Qed.

Lemma stripped_lines_trimmed (lines : list string) :
  Forall (fun x => starts_with_space x = false /\ ends_with_space x = false)
         (stripped_lines lines).
Proof.
  apply Forall_forall. intros x Hx. unfold stripped_lines in Hx.
  apply list_elem_of_fmap in Hx as (l & -> & _).
  by destruct (strip_decomp l) as (? & ? & _ & _ & _ & Hst & Hend).
Qed.

Lemma encode_inj (py : interpreter) (x y : string) :
  encode py x = encode py y -> x = y.
Proof. destruct py; simpl; congruence. Qed.

Lemma elem_of_encode (py : interpreter) (x : string) (l : list string) :
  encode py x ∈ encode py <$> l <-> x ∈ l.
Proof.
  rewrite list_elem_of_fmap. split.
  - intros (y & Heq & Hy). apply encode_inj in Heq. by subst.
  - intros H. by exists x.
Qed.

(** A native string is among encoded lines only as the encoding of itself;
    under Python 3 it is among none. *)
Lemma text_elem_of_encode (py : interpreter) (x : string) (l : list string) :
  Text x ∈ encode py <$> l -> py = Python2 /\ x ∈ l.
Proof.
  rewrite list_elem_of_fmap. intros (y & Heq & Hy).
  destruct py; simpl in Heq; [|done]. injection Heq as ->. done.
Qed.

Lemma config_same_iff (py : interpreter) (lines desired : list string) :
  config_same py lines desired = true
  <-> (forall v, v ∈ live_lines py lines <-> v ∈ Text <$> desired).
Proof.
  unfold config_same. rewrite bool_decide_eq_true, set_eq.
  by setoid_rewrite elem_of_list_to_set.
Qed.

Lemma needsUpdate_false (py : interpreter) (live desired : list string) :
  needsUpdate py live desired = false <-> config_same py live desired = true.
Proof. unfold needsUpdate. by destruct (config_same py live desired). Qed.

(** Under Python 2 the comparison is a comparison of the texts. *)
Lemma needsUpdate_python2 (live desired : list string) :
  needsUpdate Python2 live desired = false
  <-> (forall x, x ∈ drop 1 (stripped_lines live) <-> x ∈ desired).
Proof.
  rewrite needsUpdate_false, config_same_iff, live_lines_stripped. split.
  - intros H x. specialize (H (Text x)).
    change (Text x) with (encode Python2 x) in H at 1.
    rewrite elem_of_encode in H. rewrite H.
    change Text with (encode Python2). apply elem_of_encode.
  - intros H v. rewrite !list_elem_of_fmap. split.
    + intros (x & -> & Hx). exists x. split; [done|]. by apply H.
    + intros (x & -> & Hx). exists x. split; [done|]. by apply H.
Qed.

(** Under Python 3 the live lines are [bytes] and the desired lines [str]:
    the two sets are equal only when both are empty. *)
Lemma needsUpdate_python3 (live desired : list string) :
  needsUpdate Python3 live desired = false
  <-> drop 1 (stripped_lines live) = [] /\ desired = [].
Proof.
  rewrite needsUpdate_false, config_same_iff, live_lines_stripped. split.
  - intros H. split.
    + destruct (drop 1 (stripped_lines live)) as [|x l]; [done|]. exfalso.
      assert (Hin : Bytes x ∈ Text <$> desired).
      { apply H. simpl. apply list_elem_of_here. }
      apply list_elem_of_fmap in Hin as (? & ? & _). done.
    + destruct desired as [|d desired]; [done|]. exfalso.
      assert (Hin : Text d ∈ encode Python3 <$> drop 1 (stripped_lines live)).
      { apply H. simpl. apply list_elem_of_here. }
      by apply text_elem_of_encode in Hin as [? _].
  - intros [-> ->]. done.
Qed.

(** On either interpreter, no update needed means the texts agree. *)
Lemma needsUpdate_false_texts (py : interpreter) (live desired : list string) :
  needsUpdate py live desired = false ->
  forall x, x ∈ drop 1 (stripped_lines live) <-> x ∈ desired.
Proof.
  destruct py.
  - apply needsUpdate_python2.
  - intros H. apply needsUpdate_python3 in H as [-> ->]. done.
Qed.

Lemma split_lines_nonempty (s : string) : split_lines s <> [].
Proof.
  induction s as [|a s IH]; [done|]. simpl.
  destruct (Ascii.eqb a newline); [done|]. by destruct (split_lines s).
Qed.

(** A newline in the text is a line boundary of [split]. *)
Lemma split_lines_newline (s1 s2 : string) :
  split_lines (s1 +:+ String newline s2) = split_lines s1 ++ split_lines s2.
Proof.
  induction s1 as [|a s1 IH]; [reflexivity|].
  rewrite append_cons. simpl. rewrite IH.
  destruct (Ascii.eqb a newline); [reflexivity|].
  pose proof (split_lines_nonempty s1) as Hne.
  by destruct (split_lines s1).
Qed.

Lemma needsUpdate_empty_line (py : interpreter) (l1 l2 desired : list string) :
  needsUpdate py (l1 ++ "" :: l2) desired = needsUpdate py (l1 ++ l2) desired.
Proof.
  unfold needsUpdate, config_same. rewrite !live_lines_stripped.
  by rewrite !stripped_lines_app, stripped_lines_blank.
Qed.



(** C10 as the specification words it does not hold for lines of
    whitespace only: such a line is not empty when the filter tests it, so
    it is kept, as the empty string.  Added after the header it changes the
    answer under either interpreter; put before the header it is the line
    that is removed, and the header is compared. *)
Lemma whitespace_only_line_changes_result :
  needsUpdate Python2 ["interface Ethernet1"] [] = false
  /\ needsUpdate Python2 ["interface Ethernet1"; "   "] [] = true
  /\ needsUpdate Python3 ["interface Ethernet1"] [] = false
  /\ needsUpdate Python3 ["interface Ethernet1"; "   "] [] = true
  /\ needsUpdate Python2 ["interface Ethernet1"; "x"] ["x"] = false
  /\ needsUpdate Python2 ["interface Ethernet1"; "   "; "x"] ["x"] = true
  /\ clean_config Python2 ["   "; "interface Ethernet1"; "x"]
     = [Text ""; Text "interface Ethernet1"; Text "x"]
  /\ live_lines Python3 ["   "; "interface Ethernet1"; "x"]
     = [Bytes "interface Ethernet1"; Bytes "x"].
Proof. repeat split; vm_compute; reflexivity. Qed.

(** C10, amended.  Before the leading line is removed, the lines of the
    dump that are empty (of length zero) are dropped and every other line
    is trimmed at both ends; a line of whitespace only is kept, as the empty
    string.  The line removed is the first line of the dump that is not
    empty, and an empty line more or less, in the list of lines or in the
    text of the dump, does not change the answer. *)
Theorem empty_lines_do_not_matter
  (py : interpreter) (blanks rest l1 l2 desired : list string) (first s1 s2 : string) :
  Forall (fun l => l = "") blanks ->
  first <> "" ->
  clean_config py (blanks ++ first :: rest)
  = encode py (strip first) :: clean_config py rest
  /\ live_lines py (blanks ++ first :: rest) = clean_config py rest
  /\ clean_config py l1
     = encode py <$> (strip <$> filter (fun line => line <> "") l1)
  /\ Forall (fun x => starts_with_space x = false /\ ends_with_space x = false)
            (strip <$> filter (fun line => line <> "") l1)
  /\ clean_config py ["   switchport mode trunk  "; ""; "  "]
     = [encode py "switchport mode trunk"; encode py ""]
  /\ needsUpdate py (l1 ++ "" :: l2) desired = needsUpdate py (l1 ++ l2) desired
  /\ needsUpdate py (split_lines (s1 +:+ String newline (String newline s2))) desired
     = needsUpdate py (split_lines (s1 +:+ String newline s2)) desired.
Proof.
  intros Hblanks Hfirst.
  assert (Hhead : clean_config py (blanks ++ first :: rest)
                  = encode py (strip first) :: clean_config py rest).
  { rewrite !clean_config_stripped, (stripped_lines_blanks _ _ Hblanks).
    by rewrite stripped_lines_cons. }
  split; [exact Hhead|].
  split; [unfold live_lines; by rewrite Hhead|].
  split; [apply clean_config_stripped|].
  split; [apply stripped_lines_trimmed|].
  split; [by destruct py|].
  split; [apply needsUpdate_empty_line|].
  rewrite !split_lines_newline. change (split_lines (String newline s2))
    with ("" :: split_lines s2). apply needsUpdate_empty_line.
Qed.

Lemma empty_lines_do_not_matter_witness :
  clean_config Python3 ([""; ""] ++ "interface Ethernet1" :: ["   switchport mode trunk"])
  = Bytes "interface Ethernet1" :: clean_config Python3 ["   switchport mode trunk"]
  /\ live_lines Python3 ([""; ""] ++ "interface Ethernet1" :: ["   switchport mode trunk"])
     = [Bytes "switchport mode trunk"].
Proof.
  destruct (empty_lines_do_not_matter Python3 [""; ""] ["   switchport mode trunk"]
              [] [] [] "interface Ethernet1" "" "") as (H1 & H2 & _).
  - check_all.
  - discriminate.
  - split; [exact H1 | exact H2].
Defined.

(** ** The run *)

Section RunProperties.
Context `{W : World}.

Lemma string_drop_all (s : string) : string_drop (String.length s) s = "".
Proof. induction s as [|a s IH]; [reflexivity|exact IH]. Qed.

(** After a YAML failure the JSON parser is given what is left of the
    stream, not the file's content. *)
Lemma parse_config_file_fallback (config_file f' : file) :
  yaml_safe_load config_file = (Raised, f') ->
  parse_config_file config_file =
  match json_loads (string_drop (pos f') (content f')) with
  | Loaded configs => configs
  | Raised => None
  end.
Proof. intros H. unfold parse_config_file. by rewrite H. Qed.

(** A rule file that yields no table ends the run with a message, before
    anything is sent to the switch. *)
Lemma main_parse_failure (inter rule_file : string) :
  parse_config_file (File rule_file 0) = None ->
  main inter rule_file =
  ([Print "Could not successfully parse the configuration file"], None).
Proof. intros H. unfold main. by rewrite H. Qed.

Lemma runCMD_trace (_cmd : list string) (_format : string) :
  runCMD _cmd _format =
  match switch_runCmds ("enable" :: _cmd) _format with
  | Some r => ([RunCmds ("enable" :: _cmd) _format], Some r)
  | None => ([RunCmds ("enable" :: _cmd) _format;
              Print "Error with connecting to switch! Please try again."], None)
  end.
Proof. unfold runCMD. by destruct (switch_runCmds _ _). Qed.

End RunProperties.

(** C6. A rule file that YAML rejects and that is valid JSON: when the YAML
    loader has read the stream to its end before failing, the JSON parser
    is handed the empty rest of the stream, fails on it, and the run stops
    with the parse message although the content parses as JSON. *)
Theorem json_fallback_reads_spent_stream `{W : World}
  (inter rule_file : string) (f' : file) (configs : list rule) :
  yaml_safe_load (File rule_file 0) = (Raised, f') ->
  content f' = rule_file ->
  pos f' = String.length rule_file ->
  json_loads "" = Raised ->
  json_loads rule_file = Loaded (Some configs) ->
  parse_config_file (File rule_file 0) = None
  /\ main inter rule_file =
     ([Print "Could not successfully parse the configuration file"], None).
Proof.
  intros Hyaml Hcontent Hpos Hempty _.
  assert (Hparse : parse_config_file (File rule_file 0) = None).
  { rewrite (parse_config_file_fallback _ _ Hyaml), Hcontent, Hpos.
    by rewrite string_drop_all, Hempty. }
  split; [exact Hparse | by apply main_parse_failure].
Qed.

Lemma json_fallback_reads_spent_stream_witness :
  @json_loads (lab_world [] "") lab_document = Loaded (Some lab_rules)
  /\ @parse_config_file (lab_world [] "") (File lab_document 0) = None
  /\ @main (lab_world [] "") "Ethernet1" lab_document =
     ([Print "Could not successfully parse the configuration file"], None).
Proof.
  split; [reflexivity|].
  apply (@json_fallback_reads_spent_stream (lab_world [] "") "Ethernet1"
           lab_document (File lab_document (String.length lab_document)) lab_rules);
    reflexivity.
Defined.

(** C7 as the specification words it does not hold: the batch has one more
    command, [configure], between the privilege elevation and the reset. *)
Lemma config_interface_batch_is_not_spec_batch :
  let R := Rule ["aabbcc"] ["switchport mode trunk"] in
  trace (@config_interface (lab_world [] "") R "Ethernet1")
  = [RunCmds ["enable"; "configure"; "default interface Ethernet1";
              "interface Ethernet1"; "switchport mode trunk"] "json"]
  /\ spec_apply_batch "Ethernet1" R
     = ["enable"; "default interface Ethernet1"; "interface Ethernet1";
        "switchport mode trunk"]
  /\ trace (@config_interface (lab_world [] "") R "Ethernet1")
     <> [RunCmds (spec_apply_batch "Ethernet1" R) "json"].
Proof. repeat split. discriminate. Qed.

(** C7, amended.  For every interface name and rule the applier hands the
    transport exactly one batch, in this order: the implicit privilege
    elevation [enable], [configure], the reset of the interface to default,
    the entry into the interface context, then the rule's lines in the
    order of its [config].  Nothing else is sent; a transport failure adds
    only the error message. *)
Theorem config_interface_batch `{W : World} (r : rule) (inter : string) :
  let batch := "enable" :: "configure" :: ("default interface " +:+ inter)
               :: ("interface " +:+ inter) :: config r in
  trace (config_interface r inter) =
  RunCmds batch "json"
  :: match switch_runCmds batch "json" with
     | Some _ => []
     | None => [Print "Error with connecting to switch! Please try again."]
     end.
Proof.
  intros batch. unfold config_interface. rewrite runCMD_trace.
  fold batch. cbn [app]. fold batch.
  by destruct (switch_runCmds batch "json").
Qed.

(** C9. With no address learned on the interface the resolver returns none
    for every rule table, and the run ends after the address-table query:
    no running-config query, no configuration batch. *)
Theorem no_learned_address_no_action `{W : World}
  (inter rule_file : string) (configs : list rule) (reply : response) :
  parse_config_file (File rule_file 0) = Some configs ->
  switch_runCmds ["enable"; "show mac address-table interface " +:+ inter] "json"
  = Some reply ->
  tableEntries reply = [] ->
  resolve [] configs = None
  /\ main inter rule_file =
     ([RunCmds ["enable"; "show mac address-table interface " +:+ inter] "json"],
      None).
Proof.
  intros Hparse Hreply Hempty. split; [reflexivity|].
  unfold main. rewrite Hparse. unfold check_interface_macs.
  rewrite runCMD_trace, Hreply. cbn [bind ret]. by rewrite Hempty.
Qed.

Lemma no_learned_address_no_action_witness :
  resolve [] lab_rules = None
  /\ @main (lab_world [] "interface Ethernet1") "Ethernet1" "configs: [...]" =
     ([RunCmds ["enable"; "show mac address-table interface Ethernet1"] "json"],
      None).
Proof.
  apply (@no_learned_address_no_action (lab_world [] "interface Ethernet1")
           "Ethernet1" "configs: [...]" lab_rules (Response [] "interface Ethernet1"));
    reflexivity.
Defined.

(** The end-to-end scenario of the specification: a wildcard rule, then an
    OUI rule; one learned address with that OUI; a live configuration that
    holds the interface header only.  The OUI rule is chosen, an update is
    needed, and the run sends the two queries and then the batch. *)
Example end_to_end_scenario :
  resolve ["aa:bb:cc:11:22:33"] lab_rules
  = Some (Rule ["aabbcc"] ["switchport mode trunk"])
  /\ needsUpdate Python2 ["interface Ethernet1"] ["switchport mode trunk"] = true
  /\ @main (lab_world ["aa:bb:cc:11:22:33"] "interface Ethernet1")
        "Ethernet1" "configs: [...]"
     = ([RunCmds ["enable"; "show mac address-table interface Ethernet1"] "json";
         RunCmds ["enable"; "show running-config interfaces  Ethernet1"] "text";
         RunCmds ["enable"; "configure"; "default interface Ethernet1";
                  "interface Ethernet1"; "switchport mode trunk"] "json"],
        Some tt).
Proof. repeat split; vm_compute; reflexivity. Qed.

(** * Further properties of the code *)

(** ** The normaliser on its own output and on other spellings *)

Lemma lstrip_fixed (s : string) : starts_with_space s = false -> lstrip s = s.
Proof. destruct s as [|a s]; [done|]. simpl. by intros ->. Qed.

Lemma rstrip_fixed (s : string) : ends_with_space s = false -> rstrip s = s.
Proof.
  induction s as [|a s IH]; [done|].
  destruct s as [|b s].
  - simpl. by intros ->.
  - intros H. change (ends_with_space (String b s) = false) in H.
    change (rstrip (String a (String b s)))
      with (match rstrip (String b s) with
            | EmptyString => if isspace a then EmptyString else String a EmptyString
            | r => String a r
            end).
    by rewrite (IH H).
Qed.

Lemma strip_fixed (s : string) :
  starts_with_space s = false -> ends_with_space s = false -> strip s = s.
Proof. intros H1 H2. unfold strip. by rewrite (lstrip_fixed _ H1), (rstrip_fixed _ H2). Qed.

Lemma strip_idempotent (s : string) : strip (strip s) = strip s.
Proof.
  destruct (strip_decomp s) as (l & r & _ & _ & _ & Hst & Hend).
  by apply strip_fixed.
Qed.

Lemma remove_delimiters_fixed (s : string) :
  (forall a, a ∈ chars s -> is_delimiter a = false) -> remove_delimiters s = s.
Proof.
  induction s as [|a s IH]; [done|]. intros H. simpl.
  rewrite (H a) by (simpl; set_solver). f_equal. apply IH.
  intros b Hb. apply H. simpl. set_solver.
Qed.

Lemma lower_fixed (s : string) :
  (forall a, a ∈ chars s -> isupper a = false) -> lower s = s.
Proof.
  induction s as [|a s IH]; [done|]. intros H. simpl.
  unfold lower_char. rewrite (H a) by (simpl; set_solver). f_equal. apply IH.
  intros b Hb. apply H. simpl. set_solver.
Qed.

Lemma lower_char_idempotent (a : ascii) : lower_char (lower_char a) = lower_char a.
Proof. destruct a as [[] [] [] [] [] [] [] []]; reflexivity. Qed.

Lemma lower_idempotent (s : string) : lower (lower s) = lower s.
Proof.
  induction s as [|a s IH]; [done|]. simpl.
  by rewrite lower_char_idempotent, IH.
Qed.

Lemma remove_delimiters_lower (s : string) :
  remove_delimiters (lower s) = lower (remove_delimiters s).
Proof.
  induction s as [|a s IH]; [done|]. simpl.
  rewrite lower_char_delimiter. destruct (is_delimiter a); [done|].
  simpl. by rewrite IH.
Qed.

Lemma lstrip_lower (s : string) : lstrip (lower s) = lower (lstrip s).
Proof.
  induction s as [|a s IH]; [done|]. simpl.
  rewrite lower_char_space. by destruct (isspace a).
Qed.

Lemma rstrip_lower (s : string) : rstrip (lower s) = lower (rstrip s).
Proof.
  induction s as [|a s IH]; [done|]. simpl.
  rewrite IH, lower_char_space.
  destruct (rstrip s); simpl; [by destruct (isspace a)|done].
Qed.

Lemma strip_lower (s : string) : strip (lower s) = lower (strip s).
Proof. unfold strip. by rewrite lstrip_lower, rstrip_lower. Qed.

Lemma remove_delimiters_insert (d : ascii) (s1 s2 : string) :
  is_delimiter d = true ->
  remove_delimiters (s1 +:+ String d s2) = remove_delimiters (s1 +:+ s2).
Proof.
  intros Hd. induction s1 as [|a s1 IH].
  - change (remove_delimiters (String d s2) = remove_delimiters s2).
    simpl. by rewrite Hd.
  - rewrite !append_cons. simpl. by rewrite IH.
Qed.

(** What the normaliser's output looks like, as the later proofs use it. *)
Lemma clean_mac_address_shape (mac : string) :
  starts_with_space (clean_mac_address mac) = false
  /\ ends_with_space (clean_mac_address mac) = false
  /\ (forall a, a ∈ chars (clean_mac_address mac) ->
        is_delimiter a = false /\ isupper a = false).
Proof.
  rewrite !clean_mac_address_unfold.
  destruct (strip_decomp (remove_delimiters mac)) as (l & r & _ & _ & Hs & Hst & Hend).
  split; [by rewrite lower_starts|]. split; [by rewrite lower_ends|].
  intros a Ha. rewrite lower_chars in Ha.
  apply list_elem_of_fmap in Ha as (b & -> & Hb).
  split; [|apply lower_char_not_upper].
  rewrite lower_char_delimiter.
  assert (Hin : b ∈ chars (remove_delimiters mac)).
  { rewrite Hs, !chars_append. set_solver. }
  rewrite remove_delimiters_chars in Hin.
  by apply list_elem_of_filter in Hin as [? _].
Qed.

(** X1. Normalising is idempotent: a normal form is its own normal form, so
    a pattern or an address that is already clean is left as it is. *)
Theorem clean_mac_address_idempotent (mac : string) :
  clean_mac_address (clean_mac_address mac) = clean_mac_address mac.
Proof.
  destruct (clean_mac_address_shape mac) as (Hst & Hend & Hchars).
  rewrite (clean_mac_address_unfold (clean_mac_address mac)).
  rewrite remove_delimiters_fixed by (intros a Ha; by apply Hchars).
  rewrite strip_fixed by done.
  apply lower_fixed. intros a Ha. by apply Hchars.
Qed.

(** X2. The normal form does not see delimiters or letter case: a [:], [.]
    or [-] put anywhere into a string, and lowering the string first, leave
    the normal form unchanged. *)
Theorem clean_mac_address_ignores_spelling (s1 s2 : string) :
  clean_mac_address (s1 +:+ String ":"%char s2) = clean_mac_address (s1 +:+ s2)
  /\ clean_mac_address (s1 +:+ String "."%char s2) = clean_mac_address (s1 +:+ s2)
  /\ clean_mac_address (s1 +:+ String "-"%char s2) = clean_mac_address (s1 +:+ s2)
  /\ clean_mac_address (lower s1) = clean_mac_address s1.
Proof.
  rewrite !clean_mac_address_unfold.
  rewrite !remove_delimiters_insert by reflexivity.
  repeat split; try reflexivity.
  by rewrite remove_delimiters_lower, strip_lower, lower_idempotent.
Qed.

(** ** What the resolver can and cannot return *)

Lemma has_pattern_elem (p : string) (r : rule) :
  has_pattern p r = true <-> p ∈ clean_mac_address <$> macs r.
Proof.
  unfold has_pattern. rewrite existsb_exists, list_elem_of_fmap.
  split.
  - intros (m & Hin & Heq). apply String.eqb_eq in Heq.
    exists m. split; [done|]. by apply list_elem_of_In.
  - intros (m & -> & Hin). exists m. split; [by apply list_elem_of_In|].
    apply String.eqb_refl.
Qed.

Lemma find_has_pattern_Some (p : string) (configs : list rule) (r : rule) :
  find (has_pattern p) configs = Some r -> r ∈ configs /\ has_pattern p r = true.
Proof.
  intros H. apply find_some in H as [Hin Hp]. split; [|done].
  by apply list_elem_of_In.
Qed.

Lemma find_has_pattern_None (p : string) (configs : list rule) :
  find (has_pattern p) configs = None
  <-> Forall (fun r => has_pattern p r = false) configs.
Proof.
  split; [|apply find_none].
  intros H. apply Forall_forall. intros r Hr.
  apply (List.find_none _ _ H). by apply list_elem_of_In.
Qed.

Lemma last_with_Some (p : string) (configs : list rule) (r : rule) :
  last_with p configs = Some r -> r ∈ configs /\ has_pattern p r = true.
Proof.
  induction configs as [|c configs IH]; [done|].
  cbn [last_with]. destruct (last_with p configs) as [r'|].
  - intros H. injection H as ->. destruct (IH eq_refl) as [Hin Hp].
    split; [|done]. by apply list_elem_of_further.
  - destruct (has_pattern p c) eqn:Hc; [|done].
    intros H. injection H as ->. split; [apply list_elem_of_here|done].
Qed.

Lemma last_with_None (p : string) (configs : list rule) :
  last_with p configs = None
  <-> Forall (fun r => has_pattern p r = false) configs.
Proof.
  split; [|apply last_with_none].
  induction configs as [|c configs IH]; [by constructor|].
  cbn [last_with]. destruct (last_with p configs) as [r'|]; [done|].
  destruct (has_pattern p c) eqn:Hc; [done|].
  intros _. constructor; [done|by apply IH].
Qed.

Lemma resolve_Some_class (entries : list string) (configs : list rule) (r : rule) :
  resolve entries configs = Some r ->
  r ∈ configs
  /\ exists entry rest, entries = entry :: rest
       /\ (has_pattern (address_of entry) r = true
           \/ has_pattern (oui_of entry) r = true
           \/ has_pattern "*" r = true).
Proof.
  destruct entries as [|entry rest]; [done|].
  rewrite resolve_first. intros H.
  assert (Hr : r ∈ configs
               /\ (has_pattern (address_of entry) r = true
                   \/ has_pattern (oui_of entry) r = true
                   \/ has_pattern "*" r = true)).
  { destruct (find _ configs) as [r1|] eqn:E1.
    { injection H as <-. apply find_has_pattern_Some in E1 as [? ?]. tauto. }
    destruct (last_with (oui_of entry) configs) as [r2|] eqn:E2.
    { injection H as <-. apply last_with_Some in E2 as [? ?]. tauto. }
    apply last_with_Some in H as [? ?]. tauto. }
  destruct Hr as [Hin Hclass]. split; [done|]. by exists entry, rest.
Qed.

(** X3. The resolver never invents a rule and never returns an unrelated
    one: a returned rule is an entry of the table, there was a first learned
    address, and the rule holds that address, its OUI or a wildcard; a rule
    without patterns is never returned. *)
Theorem resolve_returns_matching_table_rule
  (entries : list string) (configs : list rule) (r : rule) :
  resolve entries configs = Some r ->
  r ∈ configs
  /\ macs r <> []
  /\ exists entry rest, entries = entry :: rest
       /\ (has_pattern (address_of entry) r = true
           \/ has_pattern (oui_of entry) r = true
           \/ has_pattern "*" r = true).
Proof.
  intros H. destruct (resolve_Some_class _ _ _ H) as (Hin & entry & rest & -> & Hclass).
  split; [done|]. split; [|by exists entry, rest].
  intros Hnil.
  assert (Hno : forall p, has_pattern p r = false).
  { intros p. unfold has_pattern. by rewrite Hnil. }
  rewrite !Hno in Hclass. by destruct Hclass as [?|[?|?]].
Qed.

Lemma resolve_returns_matching_table_rule_witness :
  Rule ["aabbcc"] ["switchport mode trunk"] ∈ lab_rules.
Proof.
  apply (resolve_returns_matching_table_rule ["aa:bb:cc:11:22:33"] lab_rules).
  reflexivity.
Defined.

(** X4. With at least one learned address the resolver finds nothing exactly
    when no rule of the table holds the first address, its OUI or a
    wildcard; in particular an empty table resolves to none, and a table
    with a wildcard rule always resolves. *)
Theorem resolve_none_iff_nothing_matches
  (entry : string) (rest : list string) (configs : list rule) :
  (resolve (entry :: rest) configs = None
   <-> Forall (fun r => has_pattern (address_of entry) r = false
                        /\ has_pattern (oui_of entry) r = false
                        /\ has_pattern "*" r = false) configs)
  /\ resolve (entry :: rest) [] = None
  /\ (Exists (fun r => has_pattern "*" r = true) configs ->
      is_Some (resolve (entry :: rest) configs)).
Proof.
  assert (Hiff : resolve (entry :: rest) configs = None
   <-> Forall (fun r => has_pattern (address_of entry) r = false
                        /\ has_pattern (oui_of entry) r = false
                        /\ has_pattern "*" r = false) configs).
  { rewrite resolve_first. rewrite !Forall_and.
    rewrite <- find_has_pattern_None, <- !last_with_None.
    destruct (find _ configs); [|destruct (last_with (oui_of entry) configs)];
      split; try done; try (intros (? & ? & ?); done). }
  split; [exact Hiff|]. split; [reflexivity|].
  intros Hex. destruct (resolve (entry :: rest) configs) eqn:E; [by eexists|].
  exfalso. destruct Hiff as [Hall _]. specialize (Hall eq_refl).
  apply Exists_exists in Hex as (r & Hr & Hw).
  rewrite Forall_forall in Hall. destruct (Hall r Hr) as (_ & _ & Hno). congruence.
Qed.

Lemma prefix_short (n : nat) (s : string) : String.length s <= n -> prefix n s = s.
Proof.
  revert n. induction s as [|a s IH]; intros [|n] H; simpl in *; try done; try lia.
  f_equal. apply IH. lia.
Qed.

(** X5. An address whose normal form has at most six characters is its own
    OUI, so a pattern equal to it is an exact match: the first rule holding
    it is returned (not the last, as for an OUI match of a full address),
    and otherwise the last wildcard rule. *)
Theorem resolve_short_address
  (entry : string) (rest : list string) (configs : list rule) :
  String.length (address_of entry) <= 6 ->
  oui_of entry = address_of entry
  /\ resolve (entry :: rest) configs =
     match find (has_pattern (address_of entry)) configs with
     | Some r => Some r
     | None => last_with "*" configs
     end.
Proof.
  intros Hlen.
  assert (Ho : oui_of entry = address_of entry) by (by apply prefix_short).
  split; [exact Ho|]. rewrite resolve_first, Ho.
  destruct (find _ configs) eqn:E; [done|].
  apply find_has_pattern_None, last_with_None in E. by rewrite E.
Qed.

Lemma resolve_short_address_witness :
  resolve ["aa:bb:cc"] [Rule ["aabbcc"] ["R1"]; Rule ["aabbcc"] ["R2"]]
  = Some (Rule ["aabbcc"] ["R1"])
  /\ resolve ["aa:bb:cc:11:22:33"] [Rule ["aabbcc"] ["R1"]; Rule ["aabbcc"] ["R2"]]
     = Some (Rule ["aabbcc"] ["R2"]).
Proof.
  split; [|reflexivity].
  destruct (resolve_short_address "aa:bb:cc" []
              [Rule ["aabbcc"] ["R1"]; Rule ["aabbcc"] ["R2"]]) as [_ ->].
  - vm_compute. lia.
  - reflexivity.
Defined.

Lemma prefix_length (n : nat) (s : string) : String.length (prefix n s) <= n.
Proof.
  revert s. induction n as [|n IH]; intros [|a s]; simpl; try lia.
  specialize (IH s). lia.
Qed.

(** X16. A rule whose patterns are all longer than six characters in normal
    form (full addresses) is chosen only by an exact match: when the
    resolver returns it, the first learned address is one of its patterns. *)
Theorem full_address_rule_needs_exact_match
  (entries : list string) (configs : list rule) (r : rule) :
  Forall (fun mac => 6 < String.length (clean_mac_address mac)) (macs r) ->
  resolve entries configs = Some r ->
  exists entry rest, entries = entry :: rest
    /\ address_of entry ∈ clean_mac_address <$> macs r.
Proof.
  intros Hlong Hres.
  apply resolve_Some_class in Hres as (_ & entry & rest & -> & Hclass).
  exists entry, rest. split; [done|].
  assert (Hno : forall p, String.length p <= 6 -> has_pattern p r = true -> False).
  { intros p Hp Hhas. apply has_pattern_elem, list_elem_of_fmap in Hhas as (m & -> & Hm).
    rewrite Forall_forall in Hlong. specialize (Hlong m Hm). lia. }
  destruct Hclass as [Hexact | [Houi | Hwild]].
  - by apply has_pattern_elem.
  - exfalso. apply (Hno (oui_of entry)); [apply prefix_length | done].
  - exfalso. apply (Hno "*"); [simpl; lia | done].
Qed.

Lemma full_address_rule_needs_exact_match_witness :
  exists entry rest, ["AA:BB:CC:11:22:33"; "00:1c:73:00:00:01"] = entry :: rest
    /\ address_of entry ∈ clean_mac_address <$> macs (Rule ["aabb.cc11.2233"] ["shutdown"]).
Proof.
  apply (full_address_rule_needs_exact_match
           ["AA:BB:CC:11:22:33"; "00:1c:73:00:00:01"]
           [Rule ["*"] ["d"]; Rule ["aabb.cc11.2233"] ["shutdown"]]).
  - apply Forall_cons_2; [vm_compute; lia | apply Forall_nil_2].
  - reflexivity.
Defined.

(** X6. Only the normal form of the first learned address matters: two
    address lists whose first entries normalise alike resolve alike. *)
Theorem resolve_respects_address_spelling
  (entry entry' : string) (rest rest' : list string) (configs : list rule) :
  clean_mac_address entry = clean_mac_address entry' ->
  resolve (entry :: rest) configs = resolve (entry' :: rest') configs.
Proof.
  intros H. rewrite !resolve_first. unfold oui_of, address_of. by rewrite H.
Qed.

Lemma resolve_respects_address_spelling_witness :
  resolve ["AA:BB:CC:11:22:33"; "00:1c:73:00:00:01"] lab_rules
  = resolve ["aabb.cc11.2233"] lab_rules.
Proof. apply resolve_respects_address_spelling. reflexivity. Defined.

Lemma has_pattern_same_patterns (r r' : rule) :
  (forall p, p ∈ clean_mac_address <$> macs r' <-> p ∈ clean_mac_address <$> macs r) ->
  forall p, has_pattern p r' = has_pattern p r.
Proof.
  intros H p. apply Bool.eq_iff_eq_true. by rewrite !has_pattern_elem.
Qed.

Lemma find_has_pattern_map (g : rule -> rule) (p : string) (configs : list rule) :
  Forall (fun r => forall q, has_pattern q (g r) = has_pattern q r) configs ->
  find (has_pattern p) (g <$> configs) = g <$> find (has_pattern p) configs.
Proof.
  induction 1 as [|r configs Hr _ IH]; [done|].
  cbn [fmap list_fmap find]. rewrite Hr. by destruct (has_pattern p r).
Qed.

Lemma last_with_map (g : rule -> rule) (p : string) (configs : list rule) :
  Forall (fun r => forall q, has_pattern q (g r) = has_pattern q r) configs ->
  last_with p (g <$> configs) = g <$> last_with p configs.
Proof.
  induction 1 as [|r configs Hr _ IH]; [done|].
  cbn [fmap list_fmap last_with]. fold (list_fmap rule rule g configs).
  change (list_fmap rule rule g configs) with (g <$> configs). rewrite IH, Hr.
  destruct (last_with p configs); [done|]. by destruct (has_pattern p r).
Qed.

(** X7. Which rule is chosen depends on a rule only through the set of the
    normal forms of its patterns: rewriting every rule of the table without
    changing that set (another order of the patterns, repeated patterns,
    another spelling, other configuration lines) makes the resolver return
    the rewritten version of the rule it returned before. *)
Theorem resolve_respects_pattern_sets
  (g : rule -> rule) (entries : list string) (configs : list rule) :
  Forall (fun r => forall p, p ∈ clean_mac_address <$> macs (g r)
                             <-> p ∈ clean_mac_address <$> macs r) configs ->
  resolve entries (g <$> configs) = g <$> resolve entries configs.
Proof.
  intros H.
  assert (H' : Forall (fun r => forall q, has_pattern q (g r) = has_pattern q r) configs).
  { eapply Forall_impl; [exact H|]. intros r Hr. by apply has_pattern_same_patterns. }
  destruct entries as [|entry rest]; [done|].
  rewrite !resolve_first, find_has_pattern_map, !last_with_map by done.
  destruct (find _ configs); [done|].
  by destruct (last_with (oui_of entry) configs).
Qed.

(** The patterns of every rule reversed, repeated and respelled. *)
Lemma resolve_respects_pattern_sets_witness :
  let g := fun r => Rule (reverse (macs r) ++ (clean_mac_address <$> macs r)) [] in
  resolve ["aa:bb:cc:11:22:33"]
    (g <$> [Rule ["*"; "00-1C-73"] ["d"]; Rule ["AA:BB:CC"; "aabb.cc"] ["t"]])
  = Some (Rule ["aabb.cc"; "AA:BB:CC"; "aabbcc"; "aabbcc"] []).
Proof.
  intros g.
  rewrite (resolve_respects_pattern_sets g).
  - reflexivity.
  - repeat first [ apply Forall_nil_2
                 | apply Forall_cons_2;
                     [intros p; vm_compute (fmap _ _);
                      rewrite !elem_of_cons, !elem_of_nil; tauto|] ].
Defined.

(** ** What the comparator looks at *)

Lemma stripped_lines_fixed (lines : list string) (x : string) :
  x ∈ stripped_lines lines -> strip x = x.
Proof.
  unfold stripped_lines. intros H.
  apply list_elem_of_fmap in H as (l & -> & _).
  apply strip_idempotent.
Qed.

Lemma live_lines_subseteq (py : interpreter) (lines : list string) :
  live_lines py lines ⊆ clean_config py lines.
Proof. apply subseteq_drop. Qed.

Lemma split_lines_no_newline (s : string) :
  Forall (fun l => newline ∉ chars l) (split_lines s).
Proof.
  induction s as [|a s IH]; simpl.
  - constructor; [|constructor]. simpl. apply not_elem_of_nil.
  - destruct (Ascii.eqb_spec a newline) as [->|Hne].
    + constructor; [|exact IH]. simpl. apply not_elem_of_nil.
    + destruct (split_lines s) as [|l ls].
      * constructor; [|constructor]. simpl.
        rewrite elem_of_cons, elem_of_nil. intros [?|[]]. congruence.
      * apply Forall_cons in IH as [Hl Hls]. constructor; [|exact Hls].
        simpl. rewrite elem_of_cons. intros [?|?]; [congruence|done].
Qed.

Lemma strip_chars (s : string) (a : ascii) : a ∈ chars (strip s) -> a ∈ chars s.
Proof.
  destruct (strip_decomp s) as (l & r & _ & _ & Hs & _).
  intros H. rewrite Hs, !chars_append, !elem_of_app. tauto.
Qed.

(** X8. Every line the comparator keeps of a dump is the encoding of a
    trimmed line (one that neither starts nor ends with whitespace, and that
    trimming again leaves unchanged) which holds no newline. *)
Theorem cleaned_dump_lines_are_trimmed (py : interpreter) (dump : string) :
  clean_config py (split_lines dump)
  = encode py <$> (strip <$> filter (fun line => line <> "") (split_lines dump))
  /\ Forall (fun x => strip x = x
                      /\ starts_with_space x = false
                      /\ ends_with_space x = false
                      /\ newline ∉ chars x)
            (strip <$> filter (fun line => line <> "") (split_lines dump)).
Proof.
  split; [apply clean_config_stripped|].
  apply Forall_forall. intros x Hx.
  split; [by apply (stripped_lines_fixed (split_lines dump))|].
  apply list_elem_of_fmap in Hx as (l & -> & Hl).
  apply list_elem_of_filter in Hl as [_ Hl].
  destruct (strip_decomp l) as (? & ? & _ & _ & _ & Hst & Hend).
  repeat split; try done.
  intros Hnl. apply strip_chars in Hnl.
  pose proof (split_lines_no_newline dump) as Hall.
  rewrite Forall_forall in Hall. by apply (Hall l).
Qed.

(** X9. The desired lines are compared as written, the live lines after
    trimming: a rule with a configuration line that has whitespace at an end
    never compares equal, so an update is needed on every run, under either
    interpreter. *)
Theorem untrimmed_desired_line_always_needs_update
  (py : interpreter) (live desired : list string) (x : string) :
  x ∈ desired ->
  strip x <> x ->
  needsUpdate py live desired = true.
Proof.
  intros Hx Hstrip. destruct (needsUpdate py live desired) eqn:E; [done|].
  exfalso. apply Hstrip.
  pose proof (needsUpdate_false_texts _ _ _ E x) as Hiff.
  apply Hiff in Hx. apply (stripped_lines_fixed live).
  by apply (subseteq_drop 1).
Qed.

Lemma untrimmed_desired_line_always_needs_update_witness :
  needsUpdate Python2 ["interface Ethernet1"; "   switchport mode trunk"]
              ["   switchport mode trunk"] = true.
Proof.
  apply (untrimmed_desired_line_always_needs_update _ _ _ "   switchport mode trunk").
  - apply list_elem_of_here.
  - vm_compute. discriminate.
Defined.

(** X10. The content of the leading line is never looked at: two dumps that
    differ only in their first non-empty line, and in the empty lines before
    it, get the same answer, whether that line is the interface header or
    not. *)
Theorem leading_line_is_not_compared
  (py : interpreter) (blanks blanks' : list string) (first first' : string)
  (rest desired : list string) :
  Forall (fun l => l = "") blanks ->
  Forall (fun l => l = "") blanks' ->
  first <> "" ->
  first' <> "" ->
  needsUpdate py (blanks ++ first :: rest) desired
  = needsUpdate py (blanks' ++ first' :: rest) desired.
Proof.
  intros Hb Hb' H H'. unfold needsUpdate, config_same. rewrite !live_lines_stripped.
  rewrite (stripped_lines_blanks _ _ Hb), (stripped_lines_blanks _ _ Hb').
  by rewrite !stripped_lines_cons.
Qed.

Lemma leading_line_is_not_compared_witness :
  needsUpdate Python2 ([] ++ "interface Ethernet1" :: ["   switchport mode trunk"])
              ["switchport mode trunk"]
  = needsUpdate Python2 ([""] ++ "   shutdown" :: ["   switchport mode trunk"])
                ["switchport mode trunk"].
Proof. apply leading_line_is_not_compared; try check_all; discriminate. Defined.

(** X11. A dump with at most one non-empty line (an empty reply, or the
    header alone) leaves nothing to compare: removing the leading line from
    an empty list is no error, and no update is needed exactly when the rule
    has no configuration line. *)
Theorem header_only_dump (py : interpreter) (live desired : list string) :
  length (filter (fun line => line <> "") live) <= 1 ->
  live_lines py live = []
  /\ (needsUpdate py live desired = false <-> desired = []).
Proof.
  intros Hlen.
  assert (Hnil : drop 1 (stripped_lines live) = []).
  { apply nil_length_inv. unfold stripped_lines.
    rewrite length_drop, length_fmap. lia. }
  split; [by rewrite live_lines_stripped, Hnil|].
  rewrite needsUpdate_false, config_same_iff, live_lines_stripped, Hnil. split.
  - intros H. destruct desired as [|d desired]; [done|]. exfalso.
    assert (Hin : Text d ∈ encode py <$> []) by (apply H; simpl; apply list_elem_of_here).
    by apply elem_of_nil in Hin.
  - by intros ->.
Qed.

Lemma header_only_dump_witness :
  live_lines Python3 (split_lines "interface Ethernet1") = []
  /\ (needsUpdate Python3 (split_lines "interface Ethernet1") ["switchport mode trunk"] = false
      <-> ["switchport mode trunk"] = []).
Proof.
  apply (header_only_dump Python3 (split_lines "interface Ethernet1")
           ["switchport mode trunk"]).
  vm_compute. lia.
Defined.

(** X17. Under Python 3 the kept lines are [bytes] and the lines of the
    rule are [str], so the two sets are equal only when both are empty: the
    comparator reports an update needed unless the dump has at most one
    non-empty line and the rule has no configuration line.  For a rule with
    a configuration line every run finds an update needed. *)
Theorem python3_comparison_never_matches (live desired : list string) (d : string) :
  (needsUpdate Python3 live desired = false
   <-> length (filter (fun line => line <> "") live) <= 1 /\ desired = [])
  /\ needsUpdate Python3 live (d :: desired) = true
  /\ needsUpdate Python3 ["interface Eth1"; "switchport mode trunk"; "x"]
                 ["switchport mode trunk"; "x"] = true.
Proof.
  assert (Hiff : needsUpdate Python3 live desired = false
   <-> length (filter (fun line => line <> "") live) <= 1 /\ desired = []).
  { rewrite needsUpdate_python3.
    assert (Hlen : drop 1 (stripped_lines live) = []
                   <-> length (filter (fun line => line <> "") live) <= 1).
    { unfold stripped_lines. split.
      - intros H. apply (f_equal length) in H.
        rewrite length_drop, length_fmap in H. simpl in H. lia.
      - intros H. apply nil_length_inv. rewrite length_drop, length_fmap. lia. }
    by rewrite Hlen. }
  split; [exact Hiff|]. split; [|vm_compute; reflexivity].
  destruct (needsUpdate Python3 live (d :: desired)) eqn:E; [done|].
  by apply needsUpdate_python3 in E as [_ ?].
Qed.

(** ** The run as a whole *)

Section MainOutcomes.
Context `{W : World}.

(** The run, flattened: every way [main] can go, with the events of each. *)
Lemma main_outcomes (inter rule_file : string) :
  let q1 := ["enable"; "show mac address-table interface " +:+ inter] in
  let q2 := ["enable"; "show running-config interfaces  " +:+ inter] in
  let push := fun r : rule =>
    "enable" :: "configure" :: ("default interface " +:+ inter)
    :: ("interface " +:+ inter) :: config r in
  let err := Print "Error with connecting to switch! Please try again." in
  main inter rule_file =
  match parse_config_file (File rule_file 0) with
  | None => ([Print "Could not successfully parse the configuration file"], None)
  | Some configs =>
      match switch_runCmds q1 "json" with
      | None => ([RunCmds q1 "json"; err], None)
      | Some r1 =>
          match resolve (tableEntries r1) configs with
          | None => ([RunCmds q1 "json"], None)
          | Some r =>
              match switch_runCmds q2 "text" with
              | None => ([RunCmds q1 "json"; RunCmds q2 "text"; err], None)
              | Some r2 =>
                  if needsUpdate python (split_lines (output r2)) (config r) then
                    match switch_runCmds (push r) "json" with
                    | Some _ => ([RunCmds q1 "json"; RunCmds q2 "text";
                                  RunCmds (push r) "json"], Some tt)
                    | None => ([RunCmds q1 "json"; RunCmds q2 "text";
                                RunCmds (push r) "json"; err], None)
                    end
                  else ([RunCmds q1 "json"; RunCmds q2 "text"], None)
              end
          end
      end
  end.
Proof.
  intros q1 q2 push err. unfold main.
  destruct (parse_config_file (File rule_file 0)) as [configs|]; [|reflexivity].
  unfold check_interface_macs. rewrite runCMD_trace. fold q1.
  destruct (switch_runCmds q1 "json") as [r1|]; [|reflexivity].
  cbn [bind ret]. destruct (resolve (tableEntries r1) configs) as [r|]; [|reflexivity].
  unfold check_interface_config. rewrite runCMD_trace. fold q2.
  destruct (switch_runCmds q2 "text") as [r2|]; [|reflexivity].
  cbn [bind ret]. unfold needsUpdate.
  destruct (config_same python (split_lines (output r2)) (config r)); [reflexivity|].
  cbn [negb]. unfold config_interface. rewrite runCMD_trace.
  cbn [app]. fold (push r).
  by destruct (switch_runCmds (push r) "json").
Qed.

End MainOutcomes.

(** X12. Whatever the rule file and the switch do, a run hands the
    transport at most three batches, always in the same order: the
    address-table query, the running-config query, one configuration batch.
    Each starts with [enable]; nothing is sent after a failure message; and
    the run returns normally only when all three have been sent. *)
Theorem main_sends_ordered_batches `{W : World} (inter rule_file : string) :
  exists (r : rule) (k : nat) (tail : list event),
    k <= 3
    /\ trace (main inter rule_file) =
       take k [RunCmds ["enable"; "show mac address-table interface " +:+ inter] "json";
               RunCmds ["enable"; "show running-config interfaces  " +:+ inter] "text";
               RunCmds ("enable" :: "configure" :: ("default interface " +:+ inter)
                        :: ("interface " +:+ inter) :: config r) "json"]
       ++ tail
    /\ (tail = [] \/ exists msg, tail = [Print msg])
    /\ (snd (main inter rule_file) = Some tt <-> k = 3 /\ tail = []).
Proof.
  rewrite main_outcomes. cbv zeta.
  set (dummy := Rule [] []).
  destruct (parse_config_file (File rule_file 0)) as [configs|].
  2: { exists dummy, 0, [Print "Could not successfully parse the configuration file"].
       repeat split; eauto; try lia; try done; try (intros [? ?]; lia). }
  destruct (switch_runCmds _ "json") as [r1|].
  2: { exists dummy, 1, [Print "Error with connecting to switch! Please try again."].
       repeat split; eauto; try lia; try done; try (intros [? ?]; lia). }
  destruct (resolve (tableEntries r1) configs) as [r|].
  2: { exists dummy, 1, []. repeat split; eauto; try lia; try done; try (intros [? ?]; lia). }
  destruct (switch_runCmds _ "text") as [r2|].
  2: { exists r, 2, [Print "Error with connecting to switch! Please try again."].
       repeat split; eauto; try lia; try done; try (intros [? ?]; lia). }
  destruct (needsUpdate _ _ _).
  2: { exists r, 2, []. repeat split; eauto; try lia; try done; try (intros [? ?]; lia). }
  destruct (switch_runCmds _ "json") as [r3|].
  - exists r, 3, []. repeat split; eauto.
  - exists r, 3, [Print "Error with connecting to switch! Please try again."].
    repeat split; eauto; try done; try (intros [? ?]; done).
Qed.

(** X13. Once a rule is resolved and the running configuration is read, the
    configuration batch of that rule is sent exactly when the comparator, as
    the interpreter of the run evaluates it, finds an update needed;
    otherwise the run ends after the two queries. *)
Theorem main_applies_exactly_when_needed `{W : World}
  (inter rule_file : string) (configs : list rule) (r1 r2 : response) (r : rule) :
  parse_config_file (File rule_file 0) = Some configs ->
  switch_runCmds ["enable"; "show mac address-table interface " +:+ inter] "json"
  = Some r1 ->
  resolve (tableEntries r1) configs = Some r ->
  switch_runCmds ["enable"; "show running-config interfaces  " +:+ inter] "text"
  = Some r2 ->
  if needsUpdate python (split_lines (output r2)) (config r)
  then exists tail,
      trace (main inter rule_file) =
      [RunCmds ["enable"; "show mac address-table interface " +:+ inter] "json";
       RunCmds ["enable"; "show running-config interfaces  " +:+ inter] "text";
       RunCmds ("enable" :: "configure" :: ("default interface " +:+ inter)
                :: ("interface " +:+ inter) :: config r) "json"] ++ tail
  else main inter rule_file =
       ([RunCmds ["enable"; "show mac address-table interface " +:+ inter] "json";
         RunCmds ["enable"; "show running-config interfaces  " +:+ inter] "text"],
        None).
Proof.
  intros Hparse Hq1 Hres Hq2. rewrite main_outcomes. cbv zeta.
  rewrite Hparse, Hq1, Hres, Hq2.
  destruct (needsUpdate _ _ _); [|reflexivity].
  destruct (switch_runCmds ("enable" :: "configure" :: _) "json");
    [by exists []|by eexists].
Qed.

(** The interface already carries the line of the OUI rule.  Under
    Python 2 the comparator finds it configured and the run ends after the
    two queries; under Python 3 the same reply compares unequal and the
    batch is sent. *)
Lemma main_applies_exactly_when_needed_witness :
  @main (lab_world ["aa:bb:cc:11:22:33"]
           ("interface Ethernet1" +:+ String newline "   switchport mode trunk"))
        "Ethernet1" "configs: [...]"
  = ([RunCmds ["enable"; "show mac address-table interface Ethernet1"] "json";
      RunCmds ["enable"; "show running-config interfaces  Ethernet1"] "text"],
     None)
  /\ exists tail,
      trace (@main (lab_world_py3 ["aa:bb:cc:11:22:33"]
                      ("interface Ethernet1" +:+ String newline "   switchport mode trunk"))
                   "Ethernet1" "configs: [...]")
      = [RunCmds ["enable"; "show mac address-table interface Ethernet1"] "json";
         RunCmds ["enable"; "show running-config interfaces  Ethernet1"] "text";
         RunCmds ["enable"; "configure"; "default interface Ethernet1";
                  "interface Ethernet1"; "switchport mode trunk"] "json"] ++ tail.
Proof.
  split.
  - exact (@main_applies_exactly_when_needed
             (lab_world ["aa:bb:cc:11:22:33"]
                ("interface Ethernet1" +:+ String newline "   switchport mode trunk"))
             "Ethernet1" "configs: [...]" lab_rules
             (Response ["aa:bb:cc:11:22:33"]
                ("interface Ethernet1" +:+ String newline "   switchport mode trunk"))
             (Response ["aa:bb:cc:11:22:33"]
                ("interface Ethernet1" +:+ String newline "   switchport mode trunk"))
             (Rule ["aabbcc"] ["switchport mode trunk"])
             eq_refl eq_refl eq_refl eq_refl).
  - exact (@main_applies_exactly_when_needed
             (lab_world_py3 ["aa:bb:cc:11:22:33"]
                ("interface Ethernet1" +:+ String newline "   switchport mode trunk"))
             "Ethernet1" "configs: [...]" lab_rules
             (Response ["aa:bb:cc:11:22:33"]
                ("interface Ethernet1" +:+ String newline "   switchport mode trunk"))
             (Response ["aa:bb:cc:11:22:33"]
                ("interface Ethernet1" +:+ String newline "   switchport mode trunk"))
             (Rule ["aabbcc"] ["switchport mode trunk"])
             eq_refl eq_refl eq_refl eq_refl).
Defined.

(** X18. Under Python 3, for a resolved rule that has a configuration line,
    the comparison at line 187 never succeeds: once both queries are
    answered the configuration batch is sent, whatever the running
    configuration is, so every run resets and reconfigures the interface. *)
Theorem main_python3_always_applies `{W : World}
  (inter rule_file : string) (configs : list rule) (r1 r2 : response) (r : rule) :
  python = Python3 ->
  parse_config_file (File rule_file 0) = Some configs ->
  switch_runCmds ["enable"; "show mac address-table interface " +:+ inter] "json"
  = Some r1 ->
  resolve (tableEntries r1) configs = Some r ->
  config r <> [] ->
  switch_runCmds ["enable"; "show running-config interfaces  " +:+ inter] "text"
  = Some r2 ->
  exists tail,
    trace (main inter rule_file) =
    [RunCmds ["enable"; "show mac address-table interface " +:+ inter] "json";
     RunCmds ["enable"; "show running-config interfaces  " +:+ inter] "text";
     RunCmds ("enable" :: "configure" :: ("default interface " +:+ inter)
              :: ("interface " +:+ inter) :: config r) "json"] ++ tail.
Proof.
  intros Hpy Hparse Hq1 Hres Hconfig Hq2. rewrite main_outcomes. cbv zeta.
  rewrite Hparse, Hq1, Hres, Hq2, Hpy.
  assert (Hneeds : needsUpdate Python3 (split_lines (output r2)) (config r) = true).
  { destruct (needsUpdate Python3 _ (config r)) eqn:E; [done|].
    by apply needsUpdate_python3 in E as [_ ?]. }
  rewrite Hneeds.
  destruct (switch_runCmds ("enable" :: "configure" :: _) "json");
    [by exists []|by eexists].
Qed.

(** The switch reports exactly the line of the rule; the batch is sent all
    the same. *)
Lemma main_python3_always_applies_witness :
  exists tail,
    trace (@main (lab_world_py3 ["aa:bb:cc:11:22:33"]
                    ("interface Ethernet1" +:+ String newline "   switchport mode trunk"))
                 "Ethernet1" "configs: [...]")
    = [RunCmds ["enable"; "show mac address-table interface Ethernet1"] "json";
       RunCmds ["enable"; "show running-config interfaces  Ethernet1"] "text";
       RunCmds ["enable"; "configure"; "default interface Ethernet1";
                "interface Ethernet1"; "switchport mode trunk"] "json"] ++ tail.
Proof.
  apply (@main_python3_always_applies
           (lab_world_py3 ["aa:bb:cc:11:22:33"]
              ("interface Ethernet1" +:+ String newline "   switchport mode trunk"))
           "Ethernet1" "configs: [...]" lab_rules
           (Response ["aa:bb:cc:11:22:33"]
              ("interface Ethernet1" +:+ String newline "   switchport mode trunk"))
           (Response ["aa:bb:cc:11:22:33"]
              ("interface Ethernet1" +:+ String newline "   switchport mode trunk"))
           (Rule ["aabbcc"] ["switchport mode trunk"]));
    try reflexivity.
  discriminate.
Defined.

(** X14. When no rule of the table holds the first learned address, its OUI
    or a wildcard, the run ends silently after the address-table query: the
    running configuration is not read and nothing is configured. *)
Theorem main_without_match_stops `{W : World}
  (inter rule_file : string) (configs : list rule) (r1 : response)
  (entry : string) (rest : list string) :
  parse_config_file (File rule_file 0) = Some configs ->
  switch_runCmds ["enable"; "show mac address-table interface " +:+ inter] "json"
  = Some r1 ->
  tableEntries r1 = entry :: rest ->
  Forall (fun r => has_pattern (address_of entry) r = false
                   /\ has_pattern (oui_of entry) r = false
                   /\ has_pattern "*" r = false) configs ->
  main inter rule_file =
  ([RunCmds ["enable"; "show mac address-table interface " +:+ inter] "json"], None).
Proof.
  intros Hparse Hq1 Hentries Hnone. rewrite main_outcomes. cbv zeta.
  rewrite Hparse, Hq1, Hentries.
  assert (Hres : resolve (entry :: rest) configs = None).
  { rewrite resolve_first. apply Forall_and in Hnone as [H1 H2].
    apply Forall_and in H2 as [H2 H3].
    by rewrite (find_none _ _ H1), (last_with_none _ _ H2), (last_with_none _ _ H3). }
  by rewrite Hres.
Qed.

Lemma main_without_match_stops_witness :
  @main {| python := Python3;
           yaml_safe_load := fun f => (Loaded (Some [Rule ["00:1c:73"] ["shutdown"]]), f);
           json_loads := fun _ => Raised;
           switch_runCmds := fun _ _ => Some (Response ["aa:bb:cc:11:22:33"] "") |}
        "Ethernet1" "configs: [...]"
  = ([RunCmds ["enable"; "show mac address-table interface Ethernet1"] "json"], None).
Proof.
  apply (@main_without_match_stops _ "Ethernet1" "configs: [...]"
           [Rule ["00:1c:73"] ["shutdown"]] (Response ["aa:bb:cc:11:22:33"] "")
           "aa:bb:cc:11:22:33" []); try reflexivity.
  apply Forall_cons_2; [vm_compute; by repeat split | apply Forall_nil_2].
Defined.

(** X15. A rule file the YAML loader reads without raising is never given
    to the JSON parser; when the loader yields Python's [None] (an empty
    document) the run reports the file as unparseable and stops before any
    switch query. *)
Theorem yaml_none_aborts `{W : World} (inter rule_file : string) (f' : file) :
  yaml_safe_load (File rule_file 0) = (Loaded None, f') ->
  parse_config_file (File rule_file 0) = None
  /\ main inter rule_file =
     ([Print "Could not successfully parse the configuration file"], None).
Proof.
  intros Hyaml.
  assert (Hparse : parse_config_file (File rule_file 0) = None).
  { unfold parse_config_file. by rewrite Hyaml. }
  split; [exact Hparse|]. rewrite main_outcomes. cbv zeta. by rewrite Hparse.
Qed.

Lemma yaml_none_aborts_witness :
  @main {| python := Python3;
           yaml_safe_load := fun f => (Loaded None, snd (read f));
           json_loads := fun _ => Loaded (Some lab_rules);
           switch_runCmds := fun _ _ => Some (Response ["aa:bb:cc:11:22:33"] "") |}
        "Ethernet1" ""
  = ([Print "Could not successfully parse the configuration file"], None).
Proof.
  apply (@yaml_none_aborts _ "Ethernet1" "" (File "" 0)). reflexivity.
Defined.
